(** * urlshort: path-to-URL redirect handlers

    A shallow embedding of [handler.go] (package [urlshort]) and the
    properties of its two constructors, [MapHandler] and [YAMLHandler].

    Go maps are reference values: the closure returned by [MapHandler]
    captures the map it was given, not a copy of it.  The embedding therefore
    keeps the maps of the program in a store and passes map values around as
    references into that store.  Handlers are state transformers over that
    store and the part of the world the HTTP server owns. *)

From Stdlib.Strings Require Import Byte Ascii String.
From stdpp Require Import gmap strings list fin_maps.

Local Open Scope string_scope.

(** ** Library types the program uses *)

Module url.

(** [net/url.URL], the fields a handler can tell requests apart by. *)
Record URL := { Path : string; RawQuery : string }.

End url.

Module http.

(** [net/http.Request].  The server always hands a handler a request whose
    [URL] is set, so the field is a value and not a pointer that may be nil. *)
Record Request := {
  Method : string;
  URL : url.URL;
  Header : list (string * string)
}.

(** [http.StatusFound] *)
Definition StatusFound : Z := 302.

End http.

(** ** The program *)

(** [type pathURLPair struct { Path string `yaml:"path"`; URL string `yaml:"url"` }] *)
Record pathURLPair := { Path : string; URL : string }.

(** Addresses of map objects. *)
Definition loc := positive.

Bind Scope positive_scope with loc.

(** A Go value of type [map[string]string]: nil, or a reference to a map
    object. *)
Inductive map_value := map_nil | map_at (l : loc).

(** What the program imports from [net/http]: the state of the server and of
    its connections ([World]), the handles through which handlers write
    responses ([http.ResponseWriter]), and [http.Redirect(w, r, url, code)],
    which replies to the request through [w]. *)
Class HTTP := {
  World : Type;
  ResponseWriter : Type;
  http_Redirect : ResponseWriter → http.Request → string → Z → World → World
}.

(** What the program imports from [gopkg.in/yaml.v2]: [yaml.Unmarshal(in,
    &pairs)] at [pairs []pathURLPair], as the value left in [pairs] and the
    error returned.  The library fills [pairs] as far as it gets, so the first
    component may be non-empty when the second is an error. *)
Class YAML := {
  error : Type;
  yaml_Unmarshal : list byte → list pathURLPair * option error
}.

Section urlshort.

Context {net_http : HTTP} {yaml_v2 : YAML}.

Record state := {
  maps : gmap loc (gmap string string);
  host : World
}.

(** [http.Handler]: an interface value is its [ServeHTTP] method.  A handler
    is arbitrary code: it may write to the response and to any map of the
    program it holds a reference to.  Handlers that panic are not modelled. *)
Record Handler := {
  ServeHTTP : ResponseWriter → http.Request → state → state
}.

(** [http.HandlerFunc], and its method [ServeHTTP], which calls the
    function. *)
Definition HandlerFunc := ResponseWriter → http.Request → state → state.

Definition HandlerFunc_Handler (f : HandlerFunc) : Handler :=
  {| ServeHTTP := f |}.

(** The entries of a map value.  A nil map reads as an empty one (and so does
    a reference to no object, which a Go program cannot hold). *)
Definition map_content (σ : state) (m : map_value) : gmap string string :=
  match m with
  | map_nil => ∅
  | map_at l => default ∅ (maps σ !! l)
  end.

(** [v, ok := m[key]] *)
Definition map_index (σ : state) (m : map_value) (key : string)
  : option string :=
  map_content σ m !! key.

(** [make(map[string]string)] *)
Definition make_map (σ : state) : loc * state :=
  let l := fresh (dom (maps σ)) in
  (l, {| maps := <[l := ∅]> (maps σ); host := host σ |}).

(** [m[key] = v] on the map object at [l] *)
Definition map_assign (l : loc) (key v : string) (σ : state) : state :=
  {| maps := alter (λ m, <[key := v]> m) l (maps σ); host := host σ |}.

(** [http.Redirect] in a state of the program: it writes through the response
    writer and holds no reference to a map of the program. *)
Definition Redirect (w : ResponseWriter) (r : http.Request) (target : string)
    (code : Z) (σ : state) : state :=
  {| maps := maps σ; host := http_Redirect w r target code (host σ) |}.

Definition MapHandler (pathsToUrls : map_value) (fallback : Handler)
  : HandlerFunc :=
  λ w r σ,
    let path := url.Path (http.URL r) in
    match map_index σ pathsToUrls path with
    | Some target => Redirect w r target http.StatusFound σ
    | None => ServeHTTP fallback w r σ
    end.

(** The loop [for _, pair := range pairs { pathsToUrls[pair.Path] = pair.URL }] *)
Definition assign_pairs (l : loc) (pairs : list pathURLPair) (σ : state)
  : state :=
  foldl (λ σ pair, map_assign l (Path pair) (URL pair) σ) σ pairs.

Definition YAMLHandler (yamlBytes : list byte) (fallback : Handler)
    (σ : state) : option HandlerFunc * option error * state :=
  let '(pairs, err) := yaml_Unmarshal yamlBytes in
  match err with
  | Some e => (None, Some e, σ)
  | None =>
      let '(l, σ1) := make_map σ in
      let σ2 := assign_pairs l pairs σ1 in
      (Some (MapHandler (map_at l) fallback), None, σ2)
  end.

(** A server handing a handler one request after the other. *)
Definition serve (h : HandlerFunc)
    (requests : list (ResponseWriter * http.Request)) (σ : state) : state :=
  foldl (λ σ wr, h wr.1 wr.2 σ) σ requests.

End urlshort.

(** ** The closure on the nil values of Go

    The definitions above take a request whose [URL] is set and a fallback
    that returns.  Go lets the closure be called with less: [r] and [r.URL]
    are pointers and [fallback] is an interface value, each of which may be
    nil, and a handler may panic.  This module has the closure of
    [MapHandler] on those values, with the outcome of a call as its
    result. *)

Module go.

Section closure.

Context {net_http : HTTP}.

Local Abbreviation returning_handler := Handler (only parsing).

(** The value of a panic: the runtime error of a nil dereference
    ("invalid memory address or nil pointer dereference"), or a value that a
    handler passes to [panic]. *)
Inductive panic_value := nil_dereference | raised (value : string).

(** How a call ends. *)
Inductive outcome := returned (σ : state) | panicked (v : panic_value).

(** [http.Request] with [URL *url.URL] as the pointer it is. *)
Record Request := {
  Method : string;
  URL : option url.URL;
  Header : list (string * string)
}.

(** An [http.Handler]: the nil interface, or a value with a [ServeHTTP]
    method, which returns or panics. *)
Inductive Handler :=
| nil_handler
| handler (serve : ResponseWriter → http.Request → state → outcome).

(** The request [*r] once [r.URL] is known to point to [u]. *)
Definition request (r : Request) (u : url.URL) : http.Request :=
  {| http.Method := Method r; http.URL := u; http.Header := Header r |}.

(** The closure [func(w http.ResponseWriter, r *http.Request)] that
    [MapHandler] returns.  [r.URL.Path] dereferences [r] and [r.URL];
    [fallback.ServeHTTP(w, r)] calls a method of [fallback]. *)
Definition MapHandler (pathsToUrls : map_value) (fallback : Handler)
    (w : ResponseWriter) (r : option Request) (σ : state) : outcome :=
  match r with
  | None => panicked nil_dereference
  | Some request_r =>
      match URL request_r with
      | None => panicked nil_dereference
      | Some u =>
          let path := url.Path u in
          match map_index σ pathsToUrls path with
          | Some target =>
              returned (Redirect w (request request_r u) target
                                 http.StatusFound σ)
          | None =>
              match fallback with
              | nil_handler => panicked nil_dereference
              | handler serve => serve w (request request_r u) σ
              end
          end
      end
  end.

(** A handler that returns, as a Go value. *)
Definition returning (h : returning_handler) : Handler :=
  handler (λ w r σ, returned (ServeHTTP h w r σ)).

(** A pointer to a request whose [URL] is set. *)
Definition pointer (r : http.Request) : option Request :=
  Some {| Method := http.Method r; URL := Some (http.URL r);
          Header := http.Header r |}.

End closure.

End go.

(** ** A reader for the documented configuration format

    [yaml.v2] itself is not part of the repository.  For running the program
    on concrete documents, this module reads the block style that the comment
    on [YAMLHandler] documents,
<<
    - path: /some-path
      url: https://www.some-url.com/demo
>>
    one plain scalar per field and line, and decodes it into [[]pathURLPair]
    the way the library does.  Any other text is refused as [unread]. *)

Module yaml.

Inductive item :=
| scalar_item (value : string)
| mapping_item (entries : list (string * string)).

Inductive node_kind := scalar_node | mapping_node | sequence_node.

Inductive type_error := cannot_unmarshal (found : node_kind) (into : string).

Inductive error :=
| TypeError (errors : list type_error)
| unread.

Definition code (c : ascii) : N := N_of_ascii c.

Definition alphanumeric (c : ascii) : bool :=
  let n := code c in
  ((48 <=? n) && (n <=? 57) || (65 <=? n) && (n <=? 90)
   || (97 <=? n) && (n <=? 122))%N.

Definition scalar_char (c : ascii) : bool :=
  alphanumeric c || bool_decide (c ∈ ["/"; "."; "_"; "-"; ":"]%char).

(** A plain scalar without spaces that starts with a letter, a digit or a
    slash and does not end in a colon. *)
Definition plain_scalar (s : list ascii) : bool :=
  match s with
  | [] => false
  | c :: _ =>
      (alphanumeric c || bool_decide (c = "/"%char))
      && forallb scalar_char s
      && negb (bool_decide (last s = Some ":"%char))
  end.

Fixpoint split_on (sep : ascii) (s : list ascii) : list (list ascii) :=
  match s with
  | [] => [[]]
  | c :: rest =>
      if bool_decide (c = sep) then [] :: split_on sep rest
      else match split_on sep rest with
           | [] => [[c]]
           | word :: words => (c :: word) :: words
           end
  end.

(** [key: value] *)
Definition entry (s : list ascii) : option (string * string) :=
  match split_on " " s with
  | [key; value] =>
      match reverse key with
      | ":"%char :: yek =>
          if plain_scalar (reverse yek)
             && negb (bool_decide (":"%char ∈ yek))
             && plain_scalar value
          then Some (string_of_list_ascii (reverse yek),
                     string_of_list_ascii value)
          else None
      | _ => None
      end
  | _ => None
  end.

(** One more line of a block sequence; the items read so far are kept last
    item first, and the entries of an item last entry first. *)
Definition read_line (items : list item) (line : list ascii)
  : option (list item) :=
  match line with
  | [] => Some items
  | "-"%char :: " "%char :: rest =>
      match entry rest with
      | Some e => Some (mapping_item [e] :: items)
      | None =>
          if plain_scalar rest
          then Some (scalar_item (string_of_list_ascii rest) :: items)
          else None
      end
  | " "%char :: " "%char :: rest =>
      match entry rest, items with
      | Some e, mapping_item es :: items' =>
          Some (mapping_item (e :: es) :: items')
      | _, _ => None
      end
  | _ => None
  end.

Definition in_order (it : item) : item :=
  match it with
  | scalar_item v => scalar_item v
  | mapping_item es => mapping_item (reverse es)
  end.

(** The document of a text: [None] where the text is outside the format,
    [Some None] for a stream without a document, [Some (Some items)] for a
    sequence. *)
Definition read (text : list ascii) : option (option (list item)) :=
  let lines := filter (λ l, l ≠ []) (split_on "010" text) in
  if bool_decide (lines = []) then Some None
  else if bool_decide (lines = [["["; "]"]%char]) then Some (Some [])
  else
    items ← foldl (λ acc line, acc ≫= λ items, read_line items line)
                  (Some []) lines;
    Some (Some (in_order <$> reverse items)).

(** A plain scalar that resolves to null. *)
Definition is_null (v : string) : bool :=
  bool_decide (v ∈ [""; "~"; "null"; "Null"; "NULL"]).

(** Decoding a scalar into a [string]: null gives the zero value, anything
    else its text. *)
Definition decode_string (v : string) : string :=
  if is_null v then "" else v.

(** Decoding one entry of a mapping into a [pathURLPair]: the key selects the
    field by its [yaml] tag, and a key that names no field is skipped. *)
Definition decode_entry (out : pathURLPair) (e : string * string)
  : pathURLPair :=
  let name := decode_string e.1 in
  if bool_decide (name = "path")
  then {| Path := decode_string e.2; URL := URL out |}
  else if bool_decide (name = "url")
  then {| Path := Path out; URL := decode_string e.2 |}
  else out.

(** Decoding a node into a [pathURLPair]: a mapping sets the fields it names
    and leaves the others at their zero value; null gives the zero value; any
    other scalar is a type error. *)
Definition decode_item (it : item) : option pathURLPair * list type_error :=
  match it with
  | mapping_item es => (Some (foldl decode_entry {| Path := ""; URL := "" |} es), [])
  | scalar_item v =>
      if is_null v then (Some {| Path := ""; URL := "" |}, [])
      else (None, [cannot_unmarshal scalar_node "urlshort.pathURLPair"])
  end.

(** Decoding a sequence into a slice: the elements that decode are kept, the
    type errors of the others are collected. *)
Definition decode (items : list item) : list pathURLPair * list type_error :=
  let decoded := decode_item <$> items in
  (omap fst decoded, concat (snd <$> decoded)).

Definition Unmarshal (input : list byte)
  : list pathURLPair * option error :=
  match read (list_ascii_of_string (string_of_list_byte input)) with
  | None => ([], Some unread)
  | Some None => ([], None)
  | Some (Some items) =>
      let '(pairs, errors) := decode items in
      (pairs, if bool_decide (errors = []) then None else Some (TypeError errors))
  end.

(** The bytes of a text given by its lines. *)
Definition text (lines : list string) : list byte :=
  list_byte_of_string (String.concat (String "010"%char "") lines).

End yaml.

Global Instance block_yaml : YAML :=
  {| error := yaml.error; yaml_Unmarshal := yaml.Unmarshal |}.

(** ** A host that records the replies

    The server state is the list of replies sent so far. *)

Module net.

Inductive reply :=
| redirected (w : nat) (r : http.Request) (target : string) (code : Z)
| replied (w : nat) (r : http.Request) (code : Z).

Definition Redirect (w : nat) (r : http.Request) (target : string) (code : Z)
    (log : list reply) : list reply :=
  (log ++ [redirected w r target code])%list.

End net.

Global Instance recording_http : HTTP :=
  {| World := list net.reply; ResponseWriter := nat;
     http_Redirect := net.Redirect |}.

(** A request for a path. *)
Definition get (path : string) : http.Request :=
  {| http.Method := "GET";
     http.URL := {| url.Path := path; url.RawQuery := "" |};
     http.Header := [] |}.

(** [http.NotFoundHandler()] *)
Definition NotFoundHandler : Handler :=
  {| ServeHTTP := λ w r σ,
       {| maps := maps σ;
          host := ((host σ : list net.reply) ++ [net.replied w r 404])%list |} |}.

(** A state with no map and no reply yet. *)
Definition start : state := {| maps := ∅; host := [] |}.

(** A fallback that holds a reference to a map of the program and enters the
    path it is asked for into that map. *)
Definition registering_handler (l : loc) (target : string) : Handler :=
  {| ServeHTTP := λ w r σ, map_assign l (url.Path (http.URL r)) target σ |}.

(** A request that differs from [get path] in everything but the path. *)
Definition post (path : string) : http.Request :=
  {| http.Method := "POST";
     http.URL := {| url.Path := path; url.RawQuery := "ref=mail" |};
     http.Header := [("Accept", "text/html")] |}.

(** A state whose only map is [{"/dogs": "https://example.com/dogs"}]. *)
Definition dogs : state :=
  {| maps := {[ 1%positive := {[ "/dogs" := "https://example.com/dogs" ]} ]};
     host := [] |}.

(** Documents in the format of the comment on [YAMLHandler]. *)
Definition duplicate_paths : list byte :=
  yaml.text ["- path: /a"; "  url: u1"; "- path: /a"; "  url: u2"].

Definition three_records : list byte :=
  yaml.text ["- path: /a"; "  url: u1"; "- path: /a"; "  url: u2";
             "- path: /b"; "  url: u3"].

Definition record_without_url : list byte := yaml.text ["- path: /a"].

Definition scalar_for_record : list byte :=
  yaml.text ["- path: /a"; "  url: u1"; "- oops"].

Definition empty_sequence : list byte := yaml.text ["[]"].

Definition first_record : list byte := yaml.text ["- path: /a"; "  url: u1"].

Definition second_record : list byte := yaml.text ["- path: /a"; "  url: u2"].

Definition dogs_then_cats : list byte :=
  yaml.text ["- path: /dogs"; "  url: https://example.com/dogs";
             "- path: /cats"; "  url: https://example.com/cats"].

Definition cats_then_dogs : list byte :=
  yaml.text ["- path: /cats"; "  url: https://example.com/cats";
             "- path: /dogs"; "  url: https://example.com/dogs"].

(** A state with the maps of two handlers, one at address 2 set in front of
    one at address 1, and at address 3 the map of both with the entries of
    the one in front winning. *)
Definition layered : state :=
  {| maps := {[ 1%positive := {[ "/a" := "u1"; "/b" := "u3" ]};
                2%positive := {[ "/a" := "u2" ]};
                3%positive := {[ "/a" := "u2"; "/b" := "u3" ]} ]};
     host := [] |}.

(** A fallback that replies with a status other than 404. *)
Definition GoneHandler : Handler :=
  {| ServeHTTP := λ w r σ,
       {| maps := maps σ;
          host := ((host σ : list net.reply) ++ [net.replied w r 410])%list |} |}.

(** [*r] of a request for [/cats] whose [URL] is set, and of one whose [URL]
    is nil. *)
Definition cats_request : go.Request :=
  {| go.Method := "GET";
     go.URL := Some {| url.Path := "/cats"; url.RawQuery := "" |};
     go.Header := [] |}.

Definition request_without_URL : go.Request :=
  {| go.Method := "GET"; go.URL := None; go.Header := [] |}.

(** A fallback that panics, as a handler does with [http.ErrAbortHandler]. *)
Definition AbortHandler : go.Handler :=
  go.handler (λ w r σ, go.panicked (go.raised "net/http: abort Handler")).

(** ** The canonical mapping of the specification

    The specification collapses the list of pairs into a mapping from path to
    URL in which a path that occurs more than once keeps the URL of its last
    occurrence.  [list_to_map] keeps the first binding of a key, so it is
    applied to the pairs in reverse order. *)

Definition last_url (pairs : list pathURLPair) (path : string)
  : option string :=
  URL <$> last (filter (λ pair, Path pair = path) pairs).

Definition canonical_mapping (pairs : list pathURLPair) : gmap string string :=
  list_to_map (reverse ((λ pair, (Path pair, URL pair)) <$> pairs)).

(** ** Properties *)

Local Open Scope list_scope.

Section properties.

Context {net_http : HTTP} {yaml_v2 : YAML}.

Implicit Types (σ τ : state) (m : map_value) (fallback : Handler)
  (pairs : list pathURLPair) (r : http.Request) (w : ResponseWriter).

(** *** The map store *)

Lemma state_eq σ τ : maps σ = maps τ → host σ = host τ → σ = τ.
Proof. destruct σ, τ; simpl; congruence. Qed.

Lemma map_content_maps σ τ m :
  maps σ = maps τ → map_content σ m = map_content τ m.
Proof. intros E. destruct m; simpl; [done | by rewrite E]. Qed.

Lemma map_content_at σ l (entries : gmap string string) :
  maps σ !! l = Some entries → map_content σ (map_at l) = entries.
Proof. intros E. simpl. by rewrite E. Qed.

Lemma make_map_fresh σ : maps σ !! (make_map σ).1 = None.
Proof. apply (not_elem_of_dom (D := gset loc)), is_fresh. Qed.

(** *** The collapse loop *)

Lemma canonical_mapping_snoc pairs pair :
  canonical_mapping (pairs ++ [pair])
  = <[Path pair := URL pair]> (canonical_mapping pairs).
Proof.
  unfold canonical_mapping. rewrite fmap_app. simpl.
  by rewrite reverse_snoc, list_to_map_cons.
Qed.

Lemma host_assign_pairs l pairs σ : host (assign_pairs l pairs σ) = host σ.
Proof.
  revert σ. induction pairs as [|pair pairs IH]; intros σ; [done |].
  unfold assign_pairs in *. simpl. by rewrite IH.
Qed.

Lemma maps_assign_pairs l pairs σ :
  maps (assign_pairs l pairs σ)
  = alter (λ entries, foldl (λ e pair, <[Path pair := URL pair]> e) entries pairs)
          l (maps σ).
Proof.
  revert σ. induction pairs as [|pair pairs IH]; intros σ.
  - simpl. symmetry. by apply alter_id.
  - unfold assign_pairs in *. simpl. rewrite IH. simpl.
    by rewrite alter_alter_eq.
Qed.

Lemma foldl_insert_canonical pairs :
  foldl (λ e pair, <[Path pair := URL pair]> e) (∅ : gmap string string) pairs
  = canonical_mapping pairs.
Proof.
  induction pairs as [|pair pairs IH] using rev_ind; [done |].
  by rewrite foldl_app, canonical_mapping_snoc, <- IH.
Qed.

Lemma canonical_mapping_lookup pairs path :
  canonical_mapping pairs !! path = last_url pairs path.
Proof.
  unfold last_url.
  induction pairs as [|pair pairs IH] using rev_ind; [done |].
  rewrite canonical_mapping_snoc, filter_app, lookup_insert.
  case_decide as E.
  - rewrite filter_cons_True, filter_nil by done. by rewrite last_snoc.
  - rewrite filter_cons_False, filter_nil, app_nil_r by done. apply IH.
Qed.

Lemma last_url_last before pair after :
  Path pair ∉ (Path <$> after) →
  last_url (before ++ pair :: after) (Path pair) = Some (URL pair).
Proof.
  intros Hafter. unfold last_url.
  rewrite filter_app, filter_cons_True by done.
  replace (filter (λ p, Path p = Path pair) after) with (@nil pathURLPair).
  - by rewrite last_snoc.
  - symmetry. induction after as [|p after IH]; [done |].
    rewrite fmap_cons, not_elem_of_cons in Hafter. destruct Hafter as [Hp Hafter].
    rewrite filter_cons_False by congruence. by apply IH.
Qed.

(** What [YAMLHandler] does with a document that decodes: it makes a map
    object at a fresh address, fills it with the canonical mapping of the
    decoded pairs and returns [MapHandler] of it. *)
Lemma YAMLHandler_decoded yamlBytes fallback σ pairs :
  yaml_Unmarshal yamlBytes = (pairs, None) →
  let l := fresh (dom (maps σ)) in
  YAMLHandler yamlBytes fallback σ
  = (Some (MapHandler (map_at l) fallback), None,
     {| maps := <[l := canonical_mapping pairs]> (maps σ); host := host σ |}).
Proof.
  intros E l. unfold YAMLHandler. rewrite E. simpl. do 2 f_equal.
  apply state_eq; simpl.
  - rewrite maps_assign_pairs. simpl. fold l.
    by rewrite alter_insert_eq, foldl_insert_canonical.
  - by rewrite host_assign_pairs.
Qed.

Lemma map_index_stored σ l (entries : gmap string string) key :
  maps σ !! l = Some entries → map_index σ (map_at l) key = entries !! key.
Proof. intros E. unfold map_index, map_content. by rewrite E. Qed.

(** One dispatch leaves a map alone if the fallback does. *)
Lemma MapHandler_frame m m' fallback w r σ :
  (∀ w r τ, map_content (ServeHTTP fallback w r τ) m' = map_content τ m') →
  map_content (MapHandler m fallback w r σ) m' = map_content σ m'.
Proof.
  intros Hframe. unfold MapHandler. simpl.
  destruct (map_index σ m _); [by apply map_content_maps | apply Hframe].
Qed.

Lemma serve_frame (h : HandlerFunc) m requests σ :
  (∀ w r τ, map_content (h w r τ) m = map_content τ m) →
  map_content (serve h requests σ) m = map_content σ m.
Proof.
  intros Hframe. revert σ.
  induction requests as [|[w r] requests IH]; intros σ; [done |].
  unfold serve in *. simpl. by rewrite IH, Hframe.
Qed.

(** *** The redirect dispatcher *)

(** C3: when the path of the request is a key of the mapping, the handler
    made by [MapHandler] replies with [http.Redirect] to the URL stored under
    that key, with status 302 (Found), and does nothing else. *)
Theorem MapHandler_found_redirects m fallback w r σ target :
  map_index σ m (url.Path (http.URL r)) = Some target →
  MapHandler m fallback w r σ
  = {| maps := maps σ; host := http_Redirect w r target 302 (host σ) |}.
Proof. intros E. unfold MapHandler. simpl. by rewrite E. Qed.

(** C4: when the path of the request is not a key of the mapping, the handler
    made by [MapHandler] does exactly what the fallback does on the same
    response writer, the same request and the same state. *)
Theorem MapHandler_absent_delegates m fallback w r σ :
  map_index σ m (url.Path (http.URL r)) = None →
  MapHandler m fallback w r σ = ServeHTTP fallback w r σ.
Proof. intros E. unfold MapHandler. simpl. by rewrite E. Qed.

(** The closure on a request whose URL is set and with a fallback that
    returns is the handler [MapHandler] above. *)
Lemma MapHandler_closure_returning m fallback w r σ :
  go.MapHandler m (go.returning fallback) w (go.pointer r) σ
  = go.returned (MapHandler m fallback w r σ).
Proof.
  unfold go.MapHandler, go.pointer, go.returning, MapHandler, go.request.
  destruct r as [method u header]. simpl.
  by destruct (map_index σ m (url.Path u)).
Qed.

(** C7, as the code has it: called with a fallback that is not nil on a
    request whose URL is set, the closure made by [MapHandler] raises no
    error of its own.  It finds the path and returns after the redirect, or
    does not find it and ends as the call of the fallback ends; so if it
    panics, the path was absent and the panic is the one of the fallback. *)
Theorem MapHandler_no_error_of_its_own
    m (serve : ResponseWriter → http.Request → state → go.outcome)
    w (request_r : go.Request) u σ :
  go.URL request_r = Some u →
  let r := go.request request_r u in
  ((∃ target,
       map_index σ m (url.Path u) = Some target
       ∧ go.MapHandler m (go.handler serve) w (Some request_r) σ
         = go.returned (Redirect w r target http.StatusFound σ))
   ∨ (map_index σ m (url.Path u) = None
      ∧ go.MapHandler m (go.handler serve) w (Some request_r) σ
        = serve w r σ))
  ∧ ∀ v,
      go.MapHandler m (go.handler serve) w (Some request_r) σ = go.panicked v →
      map_index σ m (url.Path u) = None ∧ serve w r σ = go.panicked v.
Proof.
  intros Hu r. unfold go.MapHandler. rewrite Hu. fold r.
  destruct (map_index σ m (url.Path u)) as [target|].
  - split; [left; by exists target | intros v Hv; discriminate Hv].
  - split; [by right | by intros v Hv].
Qed.

(** C10: for a fixed mapping and fallback, two requests with the same path
    take the same branch, and when that branch is the redirect they are sent
    to the same URL, whatever else differs between them. *)
Theorem MapHandler_depends_on_path_only m fallback w1 w2 r1 r2 σ1 σ2 :
  map_content σ1 m = map_content σ2 m →
  url.Path (http.URL r1) = url.Path (http.URL r2) →
  (∃ target,
      map_index σ1 m (url.Path (http.URL r1)) = Some target
      ∧ MapHandler m fallback w1 r1 σ1
        = Redirect w1 r1 target http.StatusFound σ1
      ∧ MapHandler m fallback w2 r2 σ2
        = Redirect w2 r2 target http.StatusFound σ2)
  ∨ (map_index σ1 m (url.Path (http.URL r1)) = None
     ∧ MapHandler m fallback w1 r1 σ1 = ServeHTTP fallback w1 r1 σ1
     ∧ MapHandler m fallback w2 r2 σ2 = ServeHTTP fallback w2 r2 σ2).
Proof.
  intros Hm Hpath. unfold MapHandler, map_index. simpl.
  rewrite <- Hpath, <- Hm.
  destruct (map_content σ1 m !! _) as [target|]; [left; by exists target | by right].
Qed.

(** C8, as the code has it: a dispatch writes no map itself; it changes the
    mapping only if the fallback it runs does.  So for a handler made by
    [MapHandler] or by [YAMLHandler] whose fallback does not write the
    mapping, the mapping is after any sequence of requests what it was when
    the handler was made.  (A fallback written in Go cannot reach the map that
    [YAMLHandler] makes; here this is the same condition on the fallback.) *)
Theorem mapping_read_only (h : HandlerFunc) m yamlBytes fallback requests σ0 σ :
  h = MapHandler m fallback
  ∨ (YAMLHandler yamlBytes fallback σ0 = (Some h, None, σ)
     ∧ m = map_at (fresh (dom (maps σ0)))) →
  (∀ w r τ, map_content (ServeHTTP fallback w r τ) m = map_content τ m) →
  map_content (serve h requests σ) m = map_content σ m.
Proof.
  intros Hmade Hframe. apply serve_frame. intros w r τ.
  destruct Hmade as [-> | [Hyaml ->]]; [by apply MapHandler_frame |].
  unfold YAMLHandler in Hyaml.
  destruct (yaml_Unmarshal yamlBytes) as [pairs [e|]]; [discriminate |].
  simpl in Hyaml. injection Hyaml as <- _. by apply MapHandler_frame.
Qed.

(** *** The configuration parser *)

(** C2, as the code has it: when [yaml.Unmarshal] returns an error,
    [YAMLHandler] returns that error and no handler, makes no map and leaves
    the state as it was, whatever part of the document had been decoded. *)
Theorem YAMLHandler_rejected yamlBytes fallback σ pairs e :
  yaml_Unmarshal yamlBytes = (pairs, Some e) →
  YAMLHandler yamlBytes fallback σ = (None, Some e, σ).
Proof. intros E. unfold YAMLHandler. by rewrite E. Qed.

(** C5: the map that [YAMLHandler] builds from a document that decodes holds,
    under every path, the URL of the last pair of the document with that
    path (and nothing for a path no pair has). *)
Theorem YAMLHandler_last_occurrence_wins yamlBytes fallback σ pairs :
  yaml_Unmarshal yamlBytes = (pairs, None) →
  ∃ h σ',
    YAMLHandler yamlBytes fallback σ = (Some h, None, σ')
    ∧ ∀ path,
        map_index σ' (map_at (fresh (dom (maps σ)))) path
        = last_url pairs path.
Proof.
  intros E. eexists _, _. split; [by apply YAMLHandler_decoded |].
  intros path. erewrite map_index_stored by apply lookup_insert_eq.
  apply canonical_mapping_lookup.
Qed.

(** C1: after [YAMLHandler] on a document that decodes, a request for a path
    of the document is redirected to the URL of the last pair with that path,
    in the state that [YAMLHandler] leaves and in any later one in which the
    map it built is as it was. *)
Theorem YAMLHandler_redirects_document_paths
    yamlBytes fallback σ before pair after :
  yaml_Unmarshal yamlBytes = (before ++ pair :: after, None) →
  Path pair ∉ (Path <$> after) →
  ∃ h σ',
    YAMLHandler yamlBytes fallback σ = (Some h, None, σ')
    ∧ ∀ w r τ,
        maps τ !! fresh (dom (maps σ)) = maps σ' !! fresh (dom (maps σ)) →
        url.Path (http.URL r) = Path pair →
        h w r τ
        = {| maps := maps τ;
             host := http_Redirect w r (URL pair) 302 (host τ) |}.
Proof.
  intros E Hlast. eexists _, _. split; [by apply YAMLHandler_decoded |].
  intros w r τ Hτ Hpath. unfold MapHandler. cbn [maps] in Hτ.
  rewrite lookup_insert_eq in Hτ.
  erewrite map_index_stored by exact Hτ.
  by rewrite Hpath, canonical_mapping_lookup, last_url_last.
Qed.

(** C6: on a document that decodes, [YAMLHandler] stores the canonical
    mapping of the decoded pairs in a new map object, changes nothing else,
    and returns a handler that acts as [MapHandler] of any map holding the
    canonical mapping does. *)
Theorem YAMLHandler_refines_MapHandler yamlBytes fallback σ pairs :
  yaml_Unmarshal yamlBytes = (pairs, None) →
  let l := fresh (dom (maps σ)) in
  ∃ h σ',
    YAMLHandler yamlBytes fallback σ = (Some h, None, σ')
    ∧ maps σ !! l = None
    ∧ maps σ' = <[l := canonical_mapping pairs]> (maps σ)
    ∧ host σ' = host σ
    ∧ ∀ m w r τ,
        maps τ !! l = maps σ' !! l →
        map_content τ m = canonical_mapping pairs →
        h w r τ = MapHandler m fallback w r τ.
Proof.
  intros E l. eexists _, _. split; [by apply YAMLHandler_decoded |].
  split; [apply make_map_fresh |]. do 2 (split; [done |]).
  intros m w r τ Hτ Hm. unfold MapHandler. cbn [maps] in Hτ.
  rewrite lookup_insert_eq in Hτ.
  erewrite map_index_stored by exact Hτ.
  unfold map_index. by rewrite Hm.
Qed.

(** C9: on a document without records, [YAMLHandler] returns no error and a
    handler over an empty map, which hands every request to the fallback. *)
Theorem YAMLHandler_empty_document yamlBytes fallback σ :
  yaml_Unmarshal yamlBytes = ([], None) →
  let l := fresh (dom (maps σ)) in
  ∃ h σ',
    YAMLHandler yamlBytes fallback σ = (Some h, None, σ')
    ∧ map_content σ' (map_at l) = ∅
    ∧ ∀ w r τ,
        maps τ !! l = maps σ' !! l →
        h w r τ = ServeHTTP fallback w r τ.
Proof.
  intros E l. eexists _, _. split; [by apply YAMLHandler_decoded |].
  split; [by apply map_content_at, lookup_insert_eq |].
  intros w r τ Hτ. unfold MapHandler. cbn [maps] in Hτ.
  rewrite lookup_insert_eq in Hτ.
  by erewrite map_index_stored by exact Hτ.
Qed.

End properties.

(** ** The properties on concrete documents and requests

    Here the YAML library is the reader of the documented format and the host
    is the one that records the replies. *)

Lemma MapHandler_found_redirects_dogs :
  map_index dogs (map_at 1) (url.Path (http.URL (get "/dogs")))
  = Some "https://example.com/dogs"
  ∧ MapHandler (map_at 1) NotFoundHandler 7 (get "/dogs") dogs
    = {| maps := maps dogs;
         host := [net.redirected 7 (get "/dogs") "https://example.com/dogs" 302] |}.
Proof.
  split; [vm_compute; reflexivity |].
  apply (MapHandler_found_redirects (map_at 1) NotFoundHandler 7 (get "/dogs")
           dogs "https://example.com/dogs").
  vm_compute; reflexivity.
Defined.

Lemma MapHandler_absent_delegates_cats :
  map_index dogs (map_at 1) (url.Path (http.URL (get "/cats"))) = None
  ∧ MapHandler (map_at 1) NotFoundHandler 7 (get "/cats") dogs
    = {| maps := maps dogs; host := [net.replied 7 (get "/cats") 404] |}.
Proof.
  split; [vm_compute; reflexivity |].
  apply (MapHandler_absent_delegates (map_at 1) NotFoundHandler 7 (get "/cats")
           dogs).
  vm_compute; reflexivity.
Defined.

Lemma MapHandler_depends_on_path_only_dogs :
  url.Path (http.URL (get "/dogs")) = url.Path (http.URL (post "/dogs"))
  ∧ MapHandler (map_at 1) NotFoundHandler 7 (get "/dogs") dogs
    = Redirect 7 (get "/dogs") "https://example.com/dogs" 302 dogs
  ∧ MapHandler (map_at 1) NotFoundHandler 8 (post "/dogs") dogs
    = Redirect 8 (post "/dogs") "https://example.com/dogs" 302 dogs.
Proof.
  split; [reflexivity |].
  destruct (MapHandler_depends_on_path_only (map_at 1) NotFoundHandler 7 8
              (get "/dogs") (post "/dogs") dogs dogs eq_refl eq_refl)
    as [(target & Hfound & Hget & Hpost) | (Habsent & _)].
  - vm_compute in Hfound. injection Hfound as <-. by split.
  - vm_compute in Habsent. discriminate Habsent.
Defined.

Lemma mapping_read_only_dogs :
  (∀ w r τ,
      map_content (ServeHTTP NotFoundHandler w r τ) (map_at 1)
      = map_content τ (map_at 1))
  ∧ map_content
      (serve (MapHandler (map_at 1) NotFoundHandler)
             [(1, get "/cats"); (2, get "/dogs"); (3, post "/cats")] dogs)
      (map_at 1)
    = map_content dogs (map_at 1)
  ∧ YAMLHandler duplicate_paths NotFoundHandler start
    = (Some (MapHandler (map_at 1) NotFoundHandler), None,
       {| maps := {[ 1%positive := {[ "/a" := "u2" ]} ]}; host := [] |})
  ∧ map_content
      (serve (MapHandler (map_at 1) NotFoundHandler)
             [(1, get "/a"); (2, get "/b")]
             {| maps := {[ 1%positive := {[ "/a" := "u2" ]} ]}; host := [] |})
      (map_at 1)
    = {[ "/a" := "u2" ]}.
Proof.
  assert (Hframe : ∀ w r τ,
             map_content (ServeHTTP NotFoundHandler w r τ) (map_at 1)
             = map_content τ (map_at 1)) by reflexivity.
  assert (Hyaml : YAMLHandler duplicate_paths NotFoundHandler start
                  = (Some (MapHandler (map_at 1) NotFoundHandler), None,
                     {| maps := {[ 1%positive := {[ "/a" := "u2" ]} ]};
                        host := [] |})) by (vm_compute; reflexivity).
  split; [exact Hframe |]. split; [| split; [exact Hyaml |]].
  - exact (mapping_read_only _ (map_at 1) [] NotFoundHandler _ dogs dogs
             (or_introl eq_refl) Hframe).
  - exact (mapping_read_only _ (map_at 1) duplicate_paths NotFoundHandler _
             start _ (or_intror (conj Hyaml eq_refl)) Hframe).
Defined.

(** A fallback that writes the map the handler reads: the first request for
    [/cats] falls back and enters the path, so the mapping is no longer what
    it was, and the second request for [/cats] is redirected. *)
Lemma fallback_rewrites_mapping :
  map_content
    (serve (MapHandler (map_at 1) (registering_handler 1 "https://example.com/x"))
           [(1, get "/cats")] dogs)
    (map_at 1)
  ≠ map_content dogs (map_at 1)
  ∧ host (serve (MapHandler (map_at 1)
                   (registering_handler 1 "https://example.com/x"))
                [(1, get "/cats"); (2, get "/cats")] dogs)
    = [net.redirected 2 (get "/cats") "https://example.com/x" 302].
Proof.
  split; [| vm_compute; reflexivity].
  intros Heq. apply (f_equal (λ entries, entries !! "/cats")) in Heq.
  vm_compute in Heq. discriminate Heq.
Qed.

Lemma YAMLHandler_rejected_scalar :
  yaml_Unmarshal scalar_for_record
  = ([{| Path := "/a"; URL := "u1" |}],
     Some (yaml.TypeError
             [yaml.cannot_unmarshal yaml.scalar_node "urlshort.pathURLPair"]))
  ∧ YAMLHandler scalar_for_record NotFoundHandler dogs
    = (None,
       Some (yaml.TypeError
               [yaml.cannot_unmarshal yaml.scalar_node "urlshort.pathURLPair"]),
       dogs).
Proof.
  split; [vm_compute; reflexivity |].
  apply (YAMLHandler_rejected (yaml_v2 := block_yaml) scalar_for_record
           NotFoundHandler dogs [{| Path := "/a"; URL := "u1" |}]).
  vm_compute; reflexivity.
Defined.

(** A record without a [url] field is not an error: the field keeps its zero
    value, [YAMLHandler] returns a handler and the path is mapped to the
    empty URL. *)
Lemma record_without_url_accepted :
  yaml_Unmarshal record_without_url = ([{| Path := "/a"; URL := "" |}], None)
  ∧ YAMLHandler record_without_url NotFoundHandler start
    = (Some (MapHandler (map_at 1) NotFoundHandler), None,
       {| maps := {[ 1%positive := {[ "/a" := "" ]} ]}; host := [] |})
  ∧ host (MapHandler (map_at 1) NotFoundHandler 1 (get "/a")
            {| maps := {[ 1%positive := {[ "/a" := "" ]} ]}; host := [] |})
    = [net.redirected 1 (get "/a") "" 302].
Proof. repeat split; vm_compute; reflexivity. Qed.

Lemma YAMLHandler_last_occurrence_wins_duplicates :
  yaml_Unmarshal duplicate_paths
  = ([{| Path := "/a"; URL := "u1" |}; {| Path := "/a"; URL := "u2" |}], None)
  ∧ (∃ h σ',
        YAMLHandler duplicate_paths NotFoundHandler start = (Some h, None, σ')
        ∧ ∀ path,
            map_index σ' (map_at (fresh (dom (maps start)))) path
            = last_url [{| Path := "/a"; URL := "u1" |};
                        {| Path := "/a"; URL := "u2" |}] path)
  ∧ last_url [{| Path := "/a"; URL := "u1" |}; {| Path := "/a"; URL := "u2" |}]
             "/a"
    = Some "u2".
Proof.
  split; [vm_compute; reflexivity |]. split; [| vm_compute; reflexivity].
  apply (YAMLHandler_last_occurrence_wins (yaml_v2 := block_yaml)
           duplicate_paths NotFoundHandler start).
  vm_compute; reflexivity.
Defined.

Lemma YAMLHandler_redirects_three_records :
  yaml_Unmarshal three_records
  = ([{| Path := "/a"; URL := "u1" |}]
       ++ ({| Path := "/a"; URL := "u2" |} :: [{| Path := "/b"; URL := "u3" |}]),
     None)
  ∧ ("/a" ∉ (Path <$> [{| Path := "/b"; URL := "u3" |}]))
  ∧ ∃ h σ',
      YAMLHandler three_records NotFoundHandler start = (Some h, None, σ')
      ∧ ∀ w r τ,
          maps τ !! fresh (dom (maps start))
          = maps σ' !! fresh (dom (maps start)) →
          url.Path (http.URL r) = "/a" →
          h w r τ
          = {| maps := maps τ; host := http_Redirect w r "u2" 302 (host τ) |}.
Proof.
  assert (Hlast : "/a" ∉ (Path <$> [{| Path := "/b"; URL := "u3" |}])).
  { intros Hin. apply list_elem_of_singleton in Hin. discriminate Hin. }
  split; [vm_compute; reflexivity |]. split; [exact Hlast |].
  apply (YAMLHandler_redirects_document_paths (yaml_v2 := block_yaml)
           three_records NotFoundHandler start
           [{| Path := "/a"; URL := "u1" |}] {| Path := "/a"; URL := "u2" |}
           [{| Path := "/b"; URL := "u3" |}]);
    [vm_compute; reflexivity | exact Hlast].
Defined.

Lemma YAMLHandler_refines_MapHandler_duplicates :
  yaml_Unmarshal duplicate_paths
  = ([{| Path := "/a"; URL := "u1" |}; {| Path := "/a"; URL := "u2" |}], None)
  ∧ canonical_mapping
      [{| Path := "/a"; URL := "u1" |}; {| Path := "/a"; URL := "u2" |}]
    = {[ "/a" := "u2" ]}
  ∧ ∃ h σ',
      YAMLHandler duplicate_paths NotFoundHandler dogs = (Some h, None, σ')
      ∧ maps dogs !! fresh (dom (maps dogs)) = None
      ∧ maps σ'
        = <[fresh (dom (maps dogs)) :=
              canonical_mapping [{| Path := "/a"; URL := "u1" |};
                                 {| Path := "/a"; URL := "u2" |}]]> (maps dogs)
      ∧ host σ' = host dogs
      ∧ ∀ m w r τ,
          maps τ !! fresh (dom (maps dogs)) = maps σ' !! fresh (dom (maps dogs)) →
          map_content τ m
          = canonical_mapping [{| Path := "/a"; URL := "u1" |};
                               {| Path := "/a"; URL := "u2" |}] →
          h w r τ = MapHandler m NotFoundHandler w r τ.
Proof.
  split; [vm_compute; reflexivity |]. split; [vm_compute; reflexivity |].
  apply (YAMLHandler_refines_MapHandler (yaml_v2 := block_yaml)
           duplicate_paths NotFoundHandler dogs).
  vm_compute; reflexivity.
Defined.

Lemma YAMLHandler_empty_documents :
  yaml_Unmarshal [] = ([], None)
  ∧ yaml_Unmarshal empty_sequence = ([], None)
  ∧ (∃ h σ',
        YAMLHandler [] NotFoundHandler start = (Some h, None, σ')
        ∧ map_content σ' (map_at (fresh (dom (maps start)))) = ∅
        ∧ ∀ w r τ,
            maps τ !! fresh (dom (maps start))
            = maps σ' !! fresh (dom (maps start)) →
            h w r τ = ServeHTTP NotFoundHandler w r τ)
  ∧ (∃ h σ',
        YAMLHandler empty_sequence NotFoundHandler dogs = (Some h, None, σ')
        ∧ map_content σ' (map_at (fresh (dom (maps dogs)))) = ∅
        ∧ ∀ w r τ,
            maps τ !! fresh (dom (maps dogs))
            = maps σ' !! fresh (dom (maps dogs)) →
            h w r τ = ServeHTTP NotFoundHandler w r τ).
Proof.
  split; [vm_compute; reflexivity |]. split; [vm_compute; reflexivity |].
  split.
  - apply (YAMLHandler_empty_document (yaml_v2 := block_yaml) []
             NotFoundHandler start).
    vm_compute; reflexivity.
  - apply (YAMLHandler_empty_document (yaml_v2 := block_yaml) empty_sequence
             NotFoundHandler dogs).
    vm_compute; reflexivity.
Defined.

(** ** Further properties of the two constructors *)

Section composition.

Context {net_http : HTTP} {yaml_v2 : YAML}.

Implicit Types (σ τ : state) (m : map_value) (fallback : Handler)
  (pairs : list pathURLPair) (r : http.Request) (w : ResponseWriter).

(** *** The collapsed mapping as a finite map *)

Lemma canonical_mapping_dom pairs :
  dom (canonical_mapping pairs) =@{gset string} list_to_set (Path <$> pairs).
Proof.
  induction pairs as [|pair pairs IH] using rev_ind; [done |].
  rewrite canonical_mapping_snoc, dom_insert_L, fmap_app. simpl.
  rewrite list_to_set_snoc_L, IH. apply (comm_L (∪)).
Qed.

Lemma canonical_mapping_size pairs :
  (size (canonical_mapping pairs) ≤ length pairs)%nat.
Proof.
  induction pairs as [|pair pairs IH] using rev_ind; [done |].
  rewrite canonical_mapping_snoc, length_app, map_size_insert. simpl.
  destruct (canonical_mapping pairs !! Path pair); unfold id; lia.
Qed.

Lemma canonical_mapping_size_NoDup pairs :
  NoDup (Path <$> pairs) → size (canonical_mapping pairs) = length pairs.
Proof.
  induction pairs as [|pair pairs IH] using rev_ind; [done |].
  rewrite fmap_app, NoDup_app. simpl. intros (Hpairs & Hnew & _).
  rewrite canonical_mapping_snoc, length_app, map_size_insert_None; simpl.
  - rewrite IH by done. lia.
  - apply (not_elem_of_dom (D := gset string)).
    rewrite canonical_mapping_dom, elem_of_list_to_set.
    intros Hin. apply (Hnew _ Hin). by left.
Qed.

Lemma canonical_mapping_app pairs1 pairs2 :
  canonical_mapping (pairs1 ++ pairs2)
  = canonical_mapping pairs2 ∪ canonical_mapping pairs1.
Proof.
  unfold canonical_mapping.
  by rewrite fmap_app, reverse_app, list_to_map_app.
Qed.

Lemma canonical_mapping_Permutation pairs1 pairs2 :
  NoDup (Path <$> pairs1) → pairs1 ≡ₚ pairs2 →
  canonical_mapping pairs1 = canonical_mapping pairs2.
Proof.
  intros Hdistinct Hperm. unfold canonical_mapping.
  apply list_to_map_proper.
  - rewrite fmap_reverse, reverse_Permutation, <- list_fmap_compose.
    exact Hdistinct.
  - by rewrite !reverse_Permutation, Hperm.
Qed.

Lemma canonical_mapping_Some pairs path target :
  canonical_mapping pairs !! path = Some target →
  {| Path := path; URL := target |} ∈ pairs.
Proof.
  rewrite canonical_mapping_lookup. unfold last_url.
  destruct (last _) as [[p u]|] eqn:Hlast; [| done].
  simpl. intros [= <-].
  apply last_Some_elem_of, list_elem_of_filter in Hlast as [Hpath Hin].
  simpl in Hpath. by subst p.
Qed.

Lemma canonical_mapping_None pairs path :
  canonical_mapping pairs !! path = None → path ∉ (Path <$> pairs).
Proof.
  intros Hnone Hin. apply (not_elem_of_dom (D := gset string)) in Hnone.
  apply Hnone. by rewrite canonical_mapping_dom, elem_of_list_to_set.
Qed.

(** *** What a handler made from a document does with a request *)

(** X1: the handler that [YAMLHandler] makes from a document that decodes
    redirects only to what the document says: for every request it either
    redirects to a URL that a record of the document gives for the path of
    the request, or the path is the path of no record and the request goes
    to the fallback. *)
Theorem YAMLHandler_follows_document yamlBytes fallback σ pairs :
  yaml_Unmarshal yamlBytes = (pairs, None) →
  ∃ h σ',
    YAMLHandler yamlBytes fallback σ = (Some h, None, σ')
    ∧ ∀ w r τ,
        maps τ !! fresh (dom (maps σ)) = maps σ' !! fresh (dom (maps σ)) →
        (∃ target,
            {| Path := url.Path (http.URL r); URL := target |} ∈ pairs
            ∧ h w r τ = Redirect w r target http.StatusFound τ)
        ∨ ((url.Path (http.URL r) ∉ (Path <$> pairs))
           ∧ h w r τ = ServeHTTP fallback w r τ).
Proof.
  intros E. eexists _, _. split; [by apply YAMLHandler_decoded |].
  intros w r τ Hτ. unfold MapHandler. cbn [maps] in Hτ.
  rewrite lookup_insert_eq in Hτ.
  erewrite map_index_stored by exact Hτ.
  destruct (canonical_mapping pairs !! _) as [target|] eqn:Hpath.
  - left. exists target. split; [by apply canonical_mapping_Some | done].
  - right. split; [by apply canonical_mapping_None | done].
Qed.

(** X2: the keys of the map that [YAMLHandler] builds are the paths of the
    records of the document, so the map has at most as many entries as the
    document has records, and as many when no path occurs twice. *)
Theorem YAMLHandler_keys_are_document_paths yamlBytes fallback σ pairs :
  yaml_Unmarshal yamlBytes = (pairs, None) →
  let built :=
    map_content (YAMLHandler yamlBytes fallback σ).2
                (map_at (fresh (dom (maps σ)))) in
  dom built =@{gset string} list_to_set (Path <$> pairs)
  ∧ (size built ≤ length pairs)%nat
  ∧ (NoDup (Path <$> pairs) → size built = length pairs).
Proof.
  intros E built. subst built.
  rewrite (YAMLHandler_decoded _ _ _ _ E). cbn [snd].
  erewrite map_content_at by apply lookup_insert_eq.
  split; [apply canonical_mapping_dom |].
  split; [apply canonical_mapping_size | apply canonical_mapping_size_NoDup].
Qed.

(** X3: the order of the records of a document matters only among records
    with the same path: two documents that decode to the same records in a
    different order, no path occurring twice, give the same handler and the
    same state. *)
Theorem YAMLHandler_record_order
    yamlBytes1 yamlBytes2 fallback σ pairs1 pairs2 :
  yaml_Unmarshal yamlBytes1 = (pairs1, None) →
  yaml_Unmarshal yamlBytes2 = (pairs2, None) →
  pairs1 ≡ₚ pairs2 →
  NoDup (Path <$> pairs1) →
  YAMLHandler yamlBytes1 fallback σ = YAMLHandler yamlBytes2 fallback σ.
Proof.
  intros E1 E2 Hperm Hdistinct.
  rewrite (YAMLHandler_decoded _ _ _ _ E1), (YAMLHandler_decoded _ _ _ _ E2).
  by rewrite (canonical_mapping_Permutation pairs1 pairs2).
Qed.

(** X4: whether the document decodes or not, [YAMLHandler] writes nothing to
    the host and changes no map that existed when it was called: a map value
    that was nil or referred to an existing map has the same entries
    afterwards. *)
Theorem YAMLHandler_leaves_existing_maps yamlBytes fallback σ m :
  m = map_nil ∨ (∃ l, m = map_at l ∧ is_Some (maps σ !! l)) →
  map_content (YAMLHandler yamlBytes fallback σ).2 m = map_content σ m
  ∧ host (YAMLHandler yamlBytes fallback σ).2 = host σ.
Proof.
  intros Hm.
  destruct (yaml_Unmarshal yamlBytes) as [pairs [e|]] eqn:E.
  - unfold YAMLHandler. by rewrite E.
  - rewrite (YAMLHandler_decoded _ _ _ _ E). cbn [snd]. split; [| done].
    destruct Hm as [-> | (l & -> & Hl)]; [done |].
    unfold map_content. cbn [maps]. rewrite lookup_insert_ne; [done |].
    intros <-. destruct Hl as [entries Hl].
    pose proof (make_map_fresh σ) as Hfresh. simpl in Hfresh. congruence.
Qed.

(** *** Handlers set in front of one another *)

(** X5: a handler made by [MapHandler] with another such handler as its
    fallback acts as one handler over the union of the two mappings in which
    the entries of the handler in front win. *)
Theorem MapHandler_chain m1 m2 m fallback w r σ :
  map_content σ m = map_content σ m1 ∪ map_content σ m2 →
  MapHandler m1 (HandlerFunc_Handler (MapHandler m2 fallback)) w r σ
  = MapHandler m fallback w r σ.
Proof.
  intros Hm. unfold MapHandler, map_index. simpl.
  rewrite Hm, lookup_union.
  destruct (map_content σ m1 !! _) as [target1|] eqn:H1.
  - by destruct (map_content σ m2 !! _).
  - by rewrite (left_id_L None (∪)).
Qed.

(** X6: a handler made by [YAMLHandler] from a second document with the
    handler of a first document as its fallback decides every request as
    the handler made from the two documents one after the other does:
    both redirect to the same URL, or both run the fallback. *)
Theorem YAMLHandler_chain_is_concatenation
    yamlBytes1 yamlBytes2 yamlBytes12 fallback σ pairs1 pairs2 :
  yaml_Unmarshal yamlBytes1 = (pairs1, None) →
  yaml_Unmarshal yamlBytes2 = (pairs2, None) →
  yaml_Unmarshal yamlBytes12 = (pairs1 ++ pairs2, None) →
  ∃ h1 σ1 h2 σ2 h12 σ12,
    YAMLHandler yamlBytes1 fallback σ = (Some h1, None, σ1)
    ∧ YAMLHandler yamlBytes2 (HandlerFunc_Handler h1) σ1 = (Some h2, None, σ2)
    ∧ YAMLHandler yamlBytes12 fallback σ = (Some h12, None, σ12)
    ∧ ∀ w r,
        (∃ target,
            h2 w r σ2 = Redirect w r target http.StatusFound σ2
            ∧ h12 w r σ12 = Redirect w r target http.StatusFound σ12)
        ∨ (h2 w r σ2 = ServeHTTP fallback w r σ2
           ∧ h12 w r σ12 = ServeHTTP fallback w r σ12).
Proof.
  intros E1 E2 E12. eexists _, _, _, _, _, _.
  split; [by apply YAMLHandler_decoded |].
  split; [by apply YAMLHandler_decoded |].
  split; [by apply YAMLHandler_decoded |].
  intros w r. cbn [maps].
  set (l1 := fresh (dom (maps σ))).
  set (l2 := fresh (dom (<[l1 := canonical_mapping pairs1]> (maps σ)))).
  assert (Hne : l2 ≠ l1).
  { intros Heq. apply (is_fresh (dom (<[l1 := canonical_mapping pairs1]> (maps σ)))).
    fold l2. rewrite Heq, dom_insert_L. set_solver. }
  unfold MapHandler, HandlerFunc_Handler. cbn [ServeHTTP].
  erewrite (map_index_stored _ l2) by apply lookup_insert_eq.
  erewrite (map_index_stored _ l1)
    by (cbn [maps]; rewrite lookup_insert_ne by done; apply lookup_insert_eq).
  erewrite (map_index_stored _ l1) by apply lookup_insert_eq.
  rewrite canonical_mapping_app, lookup_union.
  destruct (canonical_mapping pairs2 !! _) as [target2|].
  - left. exists target2. by destruct (canonical_mapping pairs1 !! _).
  - rewrite (left_id_L None (∪)).
    destruct (canonical_mapping pairs1 !! _) as [target1|];
      [left; by exists target1 | by right].
Qed.

(** *** Sequences of requests *)

(** X7: when the fallback does not write the mapping, what the handler does
    with a request does not depend on the requests served before it: it is
    decided by the path of the request and the mapping as it was at first. *)
Theorem MapHandler_history_independent m fallback requests w r σ :
  (∀ w r τ, map_content (ServeHTTP fallback w r τ) m = map_content τ m) →
  serve (MapHandler m fallback) (requests ++ [(w, r)]) σ
  = match map_index σ m (url.Path (http.URL r)) with
    | Some target =>
        Redirect w r target http.StatusFound
                 (serve (MapHandler m fallback) requests σ)
    | None => ServeHTTP fallback w r (serve (MapHandler m fallback) requests σ)
    end.
Proof.
  intros Hframe. unfold serve at 1. rewrite foldl_app. simpl.
  fold (serve (MapHandler m fallback) requests σ).
  unfold MapHandler at 1, map_index.
  rewrite (serve_frame (MapHandler m fallback) m requests σ); [done |].
  intros. by apply MapHandler_frame.
Qed.

(** X8: requests for paths of the mapping never reach the fallback: a
    sequence of such requests is served in the same way whatever the
    fallback is, and leaves every map as it was. *)
Theorem MapHandler_known_paths_ignore_fallback
    m fallback fallback' requests σ :
  Forall (λ wr, is_Some (map_index σ m (url.Path (http.URL wr.2)))) requests →
  serve (MapHandler m fallback) requests σ
  = serve (MapHandler m fallback') requests σ
  ∧ maps (serve (MapHandler m fallback) requests σ) = maps σ.
Proof.
  induction requests as [|[w r] requests IH] using rev_ind; [done |].
  rewrite Forall_app, Forall_singleton. intros [Hknown [target Hwr]].
  destruct (IH Hknown) as [Hsame Hmaps].
  unfold serve in *. rewrite !foldl_app. simpl in *.
  rewrite <- Hsame. unfold MapHandler, map_index in *.
  rewrite (map_content_maps _ σ m Hmaps), Hwr. by split.
Qed.

End composition.

(** ** The further properties on concrete documents and requests *)

Lemma YAMLHandler_follows_three_records :
  yaml_Unmarshal three_records
  = ([{| Path := "/a"; URL := "u1" |}; {| Path := "/a"; URL := "u2" |};
      {| Path := "/b"; URL := "u3" |}], None)
  ∧ ∃ h σ',
      YAMLHandler three_records NotFoundHandler start = (Some h, None, σ')
      ∧ ∀ w r τ,
          maps τ !! fresh (dom (maps start))
          = maps σ' !! fresh (dom (maps start)) →
          (∃ target,
              {| Path := url.Path (http.URL r); URL := target |}
              ∈ [{| Path := "/a"; URL := "u1" |}; {| Path := "/a"; URL := "u2" |};
                 {| Path := "/b"; URL := "u3" |}]
              ∧ h w r τ = Redirect w r target http.StatusFound τ)
          ∨ ((url.Path (http.URL r)
              ∉ (Path <$> [{| Path := "/a"; URL := "u1" |};
                           {| Path := "/a"; URL := "u2" |};
                           {| Path := "/b"; URL := "u3" |}]))
             ∧ h w r τ = ServeHTTP NotFoundHandler w r τ).
Proof.
  split; [vm_compute; reflexivity |].
  apply (YAMLHandler_follows_document (yaml_v2 := block_yaml) three_records
           NotFoundHandler start).
  vm_compute; reflexivity.
Defined.

Lemma YAMLHandler_keys_of_dogs_then_cats :
  yaml_Unmarshal dogs_then_cats
  = ([{| Path := "/dogs"; URL := "https://example.com/dogs" |};
      {| Path := "/cats"; URL := "https://example.com/cats" |}], None)
  ∧ NoDup ["/dogs"; "/cats"]
  ∧ dom (map_content (YAMLHandler dogs_then_cats NotFoundHandler dogs).2
                     (map_at (fresh (dom (maps dogs)))))
    =@{gset string} list_to_set ["/dogs"; "/cats"]
  ∧ size (map_content (YAMLHandler dogs_then_cats NotFoundHandler dogs).2
                      (map_at (fresh (dom (maps dogs)))))
    = 2%nat.
Proof.
  assert (Hdistinct : NoDup ["/dogs"; "/cats"]).
  { apply (bool_decide_unpack _). vm_compute. exact I. }
  split; [vm_compute; reflexivity |]. split; [exact Hdistinct |].
  destruct (YAMLHandler_keys_are_document_paths (yaml_v2 := block_yaml)
              dogs_then_cats NotFoundHandler dogs
              [{| Path := "/dogs"; URL := "https://example.com/dogs" |};
               {| Path := "/cats"; URL := "https://example.com/cats" |}])
    as (Hdom & _ & Hsize); [vm_compute; reflexivity |].
  split; [exact Hdom | exact (Hsize Hdistinct)].
Defined.

Lemma YAMLHandler_record_order_dogs_cats :
  yaml_Unmarshal dogs_then_cats
  = ([{| Path := "/dogs"; URL := "https://example.com/dogs" |};
      {| Path := "/cats"; URL := "https://example.com/cats" |}], None)
  ∧ yaml_Unmarshal cats_then_dogs
    = ([{| Path := "/cats"; URL := "https://example.com/cats" |};
        {| Path := "/dogs"; URL := "https://example.com/dogs" |}], None)
  ∧ YAMLHandler dogs_then_cats NotFoundHandler start
    = YAMLHandler cats_then_dogs NotFoundHandler start.
Proof.
  split; [vm_compute; reflexivity |]. split; [vm_compute; reflexivity |].
  apply (YAMLHandler_record_order (yaml_v2 := block_yaml)
           dogs_then_cats cats_then_dogs NotFoundHandler start
           [{| Path := "/dogs"; URL := "https://example.com/dogs" |};
            {| Path := "/cats"; URL := "https://example.com/cats" |}]
           [{| Path := "/cats"; URL := "https://example.com/cats" |};
            {| Path := "/dogs"; URL := "https://example.com/dogs" |}]).
  - vm_compute; reflexivity.
  - vm_compute; reflexivity.
  - apply perm_swap.
  - apply (bool_decide_unpack _). vm_compute. exact I.
Defined.

Lemma YAMLHandler_leaves_dogs :
  is_Some (maps dogs !! 1%positive)
  ∧ map_content (YAMLHandler duplicate_paths NotFoundHandler dogs).2 (map_at 1)
    = map_content dogs (map_at 1)
  ∧ host (YAMLHandler duplicate_paths NotFoundHandler dogs).2 = host dogs
  ∧ map_content (YAMLHandler scalar_for_record NotFoundHandler dogs).2 (map_at 1)
    = map_content dogs (map_at 1)
  ∧ host (YAMLHandler scalar_for_record NotFoundHandler dogs).2 = host dogs.
Proof.
  assert (Hdogs : is_Some (maps dogs !! 1%positive)) by (vm_compute; eauto).
  split; [exact Hdogs |].
  destruct (YAMLHandler_leaves_existing_maps (yaml_v2 := block_yaml)
              duplicate_paths NotFoundHandler dogs (map_at 1)
              (or_intror (ex_intro _ 1%positive (conj eq_refl Hdogs))))
    as [Hmap Hhost].
  destruct (YAMLHandler_leaves_existing_maps (yaml_v2 := block_yaml)
              scalar_for_record NotFoundHandler dogs (map_at 1)
              (or_intror (ex_intro _ 1%positive (conj eq_refl Hdogs))))
    as [Hmap' Hhost'].
  by repeat split.
Defined.

Lemma MapHandler_chain_layered :
  map_content layered (map_at 3)
  = map_content layered (map_at 2) ∪ map_content layered (map_at 1)
  ∧ MapHandler (map_at 2)
      (HandlerFunc_Handler (MapHandler (map_at 1) GoneHandler)) 1 (get "/a")
      layered
    = MapHandler (map_at 3) GoneHandler 1 (get "/a") layered
  ∧ MapHandler (map_at 2)
      (HandlerFunc_Handler (MapHandler (map_at 1) GoneHandler)) 1 (get "/b")
      layered
    = MapHandler (map_at 3) GoneHandler 1 (get "/b") layered.
Proof.
  assert (Hunion : map_content layered (map_at 3)
                   = map_content layered (map_at 2)
                     ∪ map_content layered (map_at 1))
    by (vm_compute; reflexivity).
  split; [exact Hunion |]. split.
  - exact (MapHandler_chain (map_at 2) (map_at 1) (map_at 3) GoneHandler 1
             (get "/a") layered Hunion).
  - exact (MapHandler_chain (map_at 2) (map_at 1) (map_at 3) GoneHandler 1
             (get "/b") layered Hunion).
Defined.

Lemma YAMLHandler_chain_of_two_records :
  yaml_Unmarshal first_record = ([{| Path := "/a"; URL := "u1" |}], None)
  ∧ yaml_Unmarshal second_record = ([{| Path := "/a"; URL := "u2" |}], None)
  ∧ yaml_Unmarshal duplicate_paths
    = ([{| Path := "/a"; URL := "u1" |}] ++ [{| Path := "/a"; URL := "u2" |}],
       None)
  ∧ ∃ h1 σ1 h2 σ2 h12 σ12,
      YAMLHandler first_record NotFoundHandler start = (Some h1, None, σ1)
      ∧ YAMLHandler second_record (HandlerFunc_Handler h1) σ1
        = (Some h2, None, σ2)
      ∧ YAMLHandler duplicate_paths NotFoundHandler start
        = (Some h12, None, σ12)
      ∧ ∀ w r,
          (∃ target,
              h2 w r σ2 = Redirect w r target http.StatusFound σ2
              ∧ h12 w r σ12 = Redirect w r target http.StatusFound σ12)
          ∨ (h2 w r σ2 = ServeHTTP NotFoundHandler w r σ2
             ∧ h12 w r σ12 = ServeHTTP NotFoundHandler w r σ12).
Proof.
  split; [vm_compute; reflexivity |]. split; [vm_compute; reflexivity |].
  split; [vm_compute; reflexivity |].
  apply (YAMLHandler_chain_is_concatenation (yaml_v2 := block_yaml)
           first_record second_record duplicate_paths NotFoundHandler start
           [{| Path := "/a"; URL := "u1" |}] [{| Path := "/a"; URL := "u2" |}]);
    vm_compute; reflexivity.
Defined.

Lemma MapHandler_history_independent_dogs :
  (∀ w r τ,
      map_content (ServeHTTP NotFoundHandler w r τ) (map_at 1)
      = map_content τ (map_at 1))
  ∧ serve (MapHandler (map_at 1) NotFoundHandler)
          ([(1, get "/cats"); (2, post "/dogs")] ++ [(3, get "/dogs")]) dogs
    = Redirect 3 (get "/dogs") "https://example.com/dogs" http.StatusFound
        (serve (MapHandler (map_at 1) NotFoundHandler)
               [(1, get "/cats"); (2, post "/dogs")] dogs).
Proof.
  assert (Hframe : ∀ w r τ,
             map_content (ServeHTTP NotFoundHandler w r τ) (map_at 1)
             = map_content τ (map_at 1)) by reflexivity.
  split; [exact Hframe |].
  exact (MapHandler_history_independent (map_at 1) NotFoundHandler
           [(1, get "/cats"); (2, post "/dogs")] 3 (get "/dogs") dogs Hframe).
Defined.

Lemma MapHandler_known_paths_dogs :
  Forall (λ wr, is_Some (map_index dogs (map_at 1) (url.Path (http.URL wr.2))))
         [(1, get "/dogs"); (2, post "/dogs")]
  ∧ serve (MapHandler (map_at 1) NotFoundHandler)
          [(1, get "/dogs"); (2, post "/dogs")] dogs
    = serve (MapHandler (map_at 1) (registering_handler 1 "https://example.com/x"))
            [(1, get "/dogs"); (2, post "/dogs")] dogs
  ∧ maps (serve (MapHandler (map_at 1) NotFoundHandler)
                [(1, get "/dogs"); (2, post "/dogs")] dogs)
    = maps dogs.
Proof.
  assert (Hknown :
            Forall (λ wr : nat * http.Request,
                      is_Some (map_index dogs (map_at 1)
                                         (url.Path (http.URL wr.2))))
                   [(1, get "/dogs"); (2, post "/dogs")]).
  { repeat constructor; vm_compute; eauto. }
  split; [exact Hknown |].
  exact (MapHandler_known_paths_ignore_fallback (map_at 1) NotFoundHandler
           (registering_handler 1 "https://example.com/x")
           [(1, get "/dogs"); (2, post "/dogs")] dogs Hknown).
Defined.

(** ** The closure of [MapHandler] on nil values *)

Lemma MapHandler_no_error_of_its_own_cats :
  go.URL cats_request = Some {| url.Path := "/cats"; url.RawQuery := "" |}
  ∧ go.MapHandler (map_at 1) AbortHandler 7 (Some cats_request) dogs
    = go.panicked (go.raised "net/http: abort Handler")
  ∧ go.MapHandler (map_at 1) (go.returning NotFoundHandler) 7
                  (Some cats_request) dogs
    = go.returned
        {| maps := maps dogs; host := [net.replied 7 (get "/cats") 404] |}.
Proof.
  split; [reflexivity |].
  destruct (MapHandler_no_error_of_its_own (net_http := recording_http)
              (map_at 1)
              (λ w r σ, go.panicked (go.raised "net/http: abort Handler"))
              7 cats_request {| url.Path := "/cats"; url.RawQuery := "" |} dogs
              eq_refl)
    as [[(target & Hfound & _) | (_ & Habort)] _];
    [vm_compute in Hfound; discriminate Hfound |].
  destruct (MapHandler_no_error_of_its_own (net_http := recording_http)
              (map_at 1)
              (λ w r σ, go.returned (ServeHTTP NotFoundHandler w r σ))
              7 cats_request {| url.Path := "/cats"; url.RawQuery := "" |} dogs
              eq_refl)
    as [[(target & Hfound & _) | (_ & Hreturn)] _];
    [vm_compute in Hfound; discriminate Hfound |].
  split; [exact Habort | exact Hreturn].
Defined.

(** The closure panics with a nil fallback on a path that is not in the
    mapping, and on a request whose URL is nil. *)
Lemma MapHandler_nil_dereference :
  go.MapHandler (map_at 1) go.nil_handler 7 (go.pointer (get "/cats")) dogs
  = go.panicked go.nil_dereference
  ∧ go.MapHandler (map_at 1) (go.returning NotFoundHandler) 7
                  (Some request_without_URL) dogs
    = go.panicked go.nil_dereference.
Proof. split; vm_compute; reflexivity. Qed.
